(** * Cool Tech Store: the three view functions of [app.py]

    A shallow embedding of the Flask application in [src/app.py]: the
    logging set-up done at import time, the three view functions and their
    route table, and the entry point that starts the listener.

    A view function runs inside a request context and over the process's
    mutable world (the logger hierarchy, the hidden generator of the
    imported [random] module, and the records written through
    [app.logger]); it either returns a value or raises.  That is what the
    monad [View] below says. *)

From Stdlib Require Import String ZArith List Bool Lia.
Import ListNotations.

Local Open Scope string_scope.
Local Open Scope Z_scope.
Local Open Scope list_scope.

(** ** Python's [logging] levels and records *)

Module logging.

Definition NOTSET   : Z := 0.
Definition DEBUG    : Z := 10.
Definition INFO     : Z := 20.
Definition WARNING  : Z := 30.
Definition ERROR    : Z := 40.
Definition CRITICAL : Z := 50.

Record LogRecord : Type := mkRecord
  { levelno : Z;
    msg     : string }.

(** [Logger.getEffectiveLevel]: walk from the logger towards the root
    and take the first level that is set. *)
Fixpoint getEffectiveLevel (chain : list Z) : Z :=
  match chain with
  | [] => NOTSET
  | level :: parents =>
      if level =? NOTSET then getEffectiveLevel parents else level
  end.

(** [Logger.isEnabledFor]. *)
Definition isEnabledFor (chain : list Z) (level : Z) : bool :=
  getEffectiveLevel chain <=? level.

End logging.

Import logging.

(** Python's [needle in hay] on strings. *)
Fixpoint contains (needle hay : string) : bool :=
  if prefix needle hay then true
  else match hay with
       | EmptyString => false
       | String _ rest => contains needle rest
       end.

(** ** The world a view function runs in *)

Record World : Type := mkWorld
  { root_level   : Z;                 (* level of the root logger *)
    logger_level : Z;                 (* level of [app.logger] itself *)
    rng          : Z;                 (* hidden generator of [random] *)
    app_log      : list LogRecord }.  (* records written via [app.logger] *)

(** The configuration part of the world: everything but the log. *)
Definition settings (w : World) : Z * Z * Z :=
  (root_level w, logger_level w, rng w).

(** What an HTTP request carries. *)
Record Request : Type := mkRequest
  { method       : string;
    path         : string;
    query_string : string;
    headers      : list (string * string);
    data         : string }.

(** A call either returns or raises. *)
Inductive Outcome (A : Type) : Type :=
| Returned (a : A)
| Raised (exn : string).

Arguments Returned {A} a.
Arguments Raised {A} exn.

(** Code that runs in a request context, may touch the world, may raise. *)
Definition View (A : Type) : Type := Request -> World -> Outcome A * World.

Definition ret {A} (a : A) : View A := fun _ w => (Returned a, w).

Definition bind {A B} (c : View A) (k : A -> View B) : View B :=
  fun req w =>
    match c req w with
    | (Returned a, w') => k a req w'
    | (Raised exn, w') => (Raised exn, w')
    end.

Declare Scope view_scope.
Delimit Scope view_scope with view.
Notation "c ;; k" := (bind c (fun _ => k))
  (at level 61, right associativity) : view_scope.
Local Open Scope view_scope.

(** ** Logging as the application uses it *)

(** [logging.basicConfig(filename='app.log', level=...)]: the root logger
    gets the level (and the file handler the records end up in). *)
Definition basicConfig (level : Z) (w : World) : World :=
  {| root_level := level;
     logger_level := logger_level w;
     rng := rng w;
     app_log := app_log w |}.

(** [app.logger] sits below the root logger. *)
Definition logger_chain (w : World) : list Z :=
  [logger_level w; root_level w].

(** [Logger.log]: the record is made and handed on when the level is
    enabled; the call returns [None] either way. *)
Definition logger_log (level : Z) (m : string) : View unit :=
  fun _ w =>
    if isEnabledFor (logger_chain w) level
    then (Returned tt,
          {| root_level := root_level w;
             logger_level := logger_level w;
             rng := rng w;
             app_log := app_log w ++ [mkRecord level m] |})
    else (Returned tt, w).

Definition logger_info  : string -> View unit := logger_log INFO.
Definition logger_error : string -> View unit := logger_log ERROR.

(** ** The view functions *)

(** What a view function hands back to Flask: a string or a dict. *)
Inductive Body : Type :=
| Str  (s : string)
| Dict (items : list (string * string)).

Definition Response : Type := (Body * Z)%type.

Definition home : View Response :=
  logger_info "Homepage visited" ;;
  ret (Str "Welcome to Cool Tech Store!", 200).

Definition error : View Response :=
  logger_error "An error occurred!" ;;
  ret (Str "Something went wrong!", 500).

Definition health : View Response :=
  ret (Dict [("status", "healthy")], 200).

(** ** Routing *)

Inductive Endpoint : Type := Home | Error | Health.

(** The rules registered by the three [@app.route] decorators. *)
Definition url_map : list (string * Endpoint) :=
  [("/", Home); ("/error", Error); ("/health", Health)].

Definition view_functions (e : Endpoint) : View Response :=
  match e with
  | Home => home
  | Error => error
  | Health => health
  end.

Fixpoint lookup_rule (rules : list (string * Endpoint)) (p : string)
  : option Endpoint :=
  match rules with
  | [] => None
  | (rule, e) :: rest => if rule =? p then Some e else lookup_rule rest p
  end%string.

(** A GET request is matched on its path alone.  Anything that is not
    matched here is answered by the framework, not by this application. *)
Definition match_rule (req : Request) : option Endpoint :=
  if (method req =? "GET")%string then lookup_rule url_map (path req)
  else None.

(** Run the view function the request is routed to, if there is one. *)
Definition dispatch_request (req : Request) (w : World)
  : option (Outcome Response * World) :=
  match match_rule req with
  | Some e => Some (view_functions e req w)
  | None => None
  end.

(** Serve the requests one after the other; unmatched ones are skipped. *)
Fixpoint serve_all (reqs : list Request) (w : World)
  : list (Outcome Response) * World :=
  match reqs with
  | [] => ([], w)
  | req :: rest =>
      match dispatch_request req w with
      | Some (out, w') =>
          let (outs, w'') := serve_all rest w' in (out :: outs, w'')
      | None => serve_all rest w
      end
  end.

(** ** Start-up *)

(** [app.logger] is made on first use: Flask sets it to DEBUG when the
    application is in debug mode and leaves it unset otherwise. *)
Definition create_logger (debug : bool) (w : World) : World :=
  {| root_level := root_level w;
     logger_level := if debug then DEBUG else logger_level w;
     rng := rng w;
     app_log := app_log w |}.

(** The world after the module has been imported: the interpreter starts
    with the root logger at WARNING and no level on the other loggers,
    [random] is seeded by the system, and [basicConfig] has run. *)
Definition boot (debug : bool) (seed : Z) : World :=
  create_logger debug
    (basicConfig INFO
       {| root_level := WARNING;
          logger_level := NOTSET;
          rng := seed;
          app_log := [] |}).

(** The worlds the running application can be in. *)
Inductive reachable : World -> Prop :=
| reach_boot (debug : bool) (seed : Z) : reachable (boot debug seed)
| reach_request (req : Request) (e : Endpoint) (w : World) :
    reachable w ->
    match_rule req = Some e ->
    reachable (snd (view_functions e req w)).

(** The listener [app.run] is asked to start. *)
Record Listener : Type := mkListener
  { host : string;
    port : Z }.

Definition app_run (h : string) (p : Z) : Listener :=
  {| host := h; port := p |}.

(** The wildcard IPv4 address: every interface of the machine. *)
Definition all_interfaces (l : Listener) : bool :=
  (host l =? "0.0.0.0")%string.

(** The last two lines of the module, for a module run under the name
    [name] in a process with the given command line and environment. *)
Definition main (name : string) (argv : list string)
    (environ : list (string * string)) : option Listener :=
  if (name =? "__main__")%string then Some (app_run "0.0.0.0" 5000)
  else None.

(** * Properties *)

(** ** What a logging call does *)

Lemma logger_log_returns (level : Z) (m : string) (req : Request) (w : World) :
  fst (logger_log level m req w) = Returned tt.
Proof.
  unfold logger_log.
  destruct (isEnabledFor (logger_chain w) level); reflexivity.
Qed.

Lemma logger_log_settings (level : Z) (m : string) (req : Request) (w : World) :
  settings (snd (logger_log level m req w)) = settings w.
Proof.
  unfold logger_log.
  destruct (isEnabledFor (logger_chain w) level); reflexivity.
Qed.

Lemma logger_log_enabled (level : Z) (m : string) (req : Request) (w : World) :
  isEnabledFor (logger_chain w) level = true ->
  app_log (snd (logger_log level m req w)) = app_log w ++ [mkRecord level m].
Proof.
  intros Hon. unfold logger_log. rewrite Hon. reflexivity.
Qed.

Lemma logger_log_grows (level : Z) (m : string) (req : Request) (w : World) :
  exists new, app_log (snd (logger_log level m req w)) = app_log w ++ new.
Proof.
  unfold logger_log.
  destruct (isEnabledFor (logger_chain w) level); cbn.
  - eexists; reflexivity.
  - exists []. symmetry. apply app_nil_r.
Qed.

(** A logging call followed by a [return]: the shape of [home] and [error]. *)
Lemma log_then_ret (level : Z) (m : string) (r : Response)
    (req : Request) (w : World) :
  (logger_log level m ;; ret r) req w
  = (Returned r, snd (logger_log level m req w)).
Proof.
  unfold bind.
  pose proof (logger_log_returns level m req w) as Hret.
  destruct (logger_log level m req w) as [[[] | exn] w']; cbn in *.
  - reflexivity.
  - discriminate Hret.
Qed.

(** ** The three view functions, one by one *)

Lemma home_run (req : Request) (w : World) :
  home req w
  = (Returned (Str "Welcome to Cool Tech Store!", 200),
     snd (logger_log INFO "Homepage visited" req w)).
Proof. apply log_then_ret. Qed.

Lemma error_run (req : Request) (w : World) :
  error req w
  = (Returned (Str "Something went wrong!", 500),
     snd (logger_log ERROR "An error occurred!" req w)).
Proof. apply log_then_ret. Qed.

Lemma health_run (req : Request) (w : World) :
  health req w = (Returned (Dict [("status", "healthy")], 200), w).
Proof. reflexivity. Qed.

(** No view function touches the settings, and none removes a record. *)
Lemma view_settings (e : Endpoint) (req : Request) (w : World) :
  settings (snd (view_functions e req w)) = settings w.
Proof.
  destruct e; cbn [view_functions].
  - rewrite home_run. apply logger_log_settings.
  - rewrite error_run. apply logger_log_settings.
  - reflexivity.
Qed.

Lemma view_log_grows (e : Endpoint) (req : Request) (w : World) :
  exists new, app_log (snd (view_functions e req w)) = app_log w ++ new.
Proof.
  destruct e; cbn [view_functions].
  - rewrite home_run. apply logger_log_grows.
  - rewrite error_run. apply logger_log_grows.
  - exists []. cbn. symmetry. apply app_nil_r.
Qed.

(** ** Routing *)


Lemma match_rule_get (req : Request) (p : string) :
  method req = "GET" -> path req = p ->
  match_rule req = lookup_rule url_map p.
Proof.
  intros Hm Hp. unfold match_rule. rewrite Hm, Hp. reflexivity.
Qed.

(** ** The logger stays as [basicConfig] left it *)

Definition configured (w : World) : Prop :=
  getEffectiveLevel (logger_chain w) <= INFO.

Lemma settings_configured (w w' : World) :
  settings w' = settings w -> configured w -> configured w'.
Proof.
  unfold settings, configured, logger_chain. intros [= Hr Hl _] Hw.
  rewrite Hr, Hl. exact Hw.
Qed.

Lemma reachable_configured (w : World) : reachable w -> configured w.
Proof.
  induction 1 as [debug seed | req e w Hw IH Hroute].
  - destruct debug; unfold configured; cbn; unfold DEBUG, INFO; lia.
  - apply (settings_configured w); [apply view_settings | exact IH].
Qed.

Lemma configured_enabled (w : World) (level : Z) :
  configured w -> INFO <= level ->
  isEnabledFor (logger_chain w) level = true.
Proof.
  unfold configured, isEnabledFor. intros Hw Hle.
  apply Z.leb_le. lia.
Qed.

Ltac enabled :=
  apply configured_enabled;
  [ apply reachable_configured; assumption
  | unfold INFO, ERROR; lia ].

(** ** What a client and the log see of one request *)

Definition response_of (req : Request) (w : World)
  : option (Outcome Response) :=
  option_map fst (dispatch_request req w).

Definition log_after (req : Request) (w : World) : option (list LogRecord) :=
  option_map (fun rw => app_log (snd rw)) (dispatch_request req w).

Lemma dispatch_matched (req : Request) (e : Endpoint) (w : World) :
  match_rule req = Some e ->
  dispatch_request req w = Some (view_functions e req w).
Proof. intros Hroute. unfold dispatch_request. rewrite Hroute. reflexivity. Qed.

Lemma view_response_fixed (e : Endpoint) (req1 req2 : Request) (w1 w2 : World) :
  fst (view_functions e req1 w1) = fst (view_functions e req2 w2).
Proof.
  destruct e; cbn [view_functions].
  - rewrite !home_run. reflexivity.
  - rewrite !error_run. reflexivity.
  - reflexivity.
Qed.

(** Requests used to exercise the statements below. *)
Definition curl (p q : string) : Request :=
  {| method := "GET"; path := p; query_string := q;
     headers := [("User-Agent", "curl/8.5.0")]; data := "" |}.

Definition probe (p : string) : Request :=
  {| method := "GET"; path := p; query_string := "";
     headers := [("Accept", "application/json"); ("X-Debug", "1")];
     data := "ping" |}.

(** A world the application is in after it has served a few requests. *)
Definition busy : World :=
  snd (serve_all [curl "/" ""; curl "/error" "x=1"; probe "/health"] (boot false 42)).

Lemma busy_reachable : reachable busy.
Proof.
  exact (reach_request (probe "/health") Health _
           (reach_request (curl "/error" "x=1") Error _
              (reach_request (curl "/" "") Home _
                 (reach_boot false 42) eq_refl) eq_refl) eq_refl).
Defined.

(** ** The routes *)

(** C1. Whatever else a GET request for [/] carries and whatever the world
    it arrives in, the view function it is routed to returns the body
    "Welcome to Cool Tech Store!" with status 200. *)
Theorem get_home_response (req : Request) (w : World) :
  method req = "GET" -> path req = "/" ->
  response_of req w = Some (Returned (Str "Welcome to Cool Tech Store!", 200)).
Proof.
  intros Hm Hp. unfold response_of.
  rewrite (dispatch_matched req Home).
  - cbn [view_functions option_map]. rewrite home_run. reflexivity.
  - rewrite (match_rule_get req "/" Hm Hp). reflexivity.
Qed.

Lemma get_home_response_witness :
  response_of (curl "/" "utm=mail") busy
  = Some (Returned (Str "Welcome to Cool Tech Store!", 200)).
Proof. apply get_home_response; reflexivity. Defined.

(** C2. Every GET request for [/error] gets the body
    "Something went wrong!" with status 500. *)
Theorem get_error_response (req : Request) (w : World) :
  method req = "GET" -> path req = "/error" ->
  response_of req w = Some (Returned (Str "Something went wrong!", 500)).
Proof.
  intros Hm Hp. unfold response_of.
  rewrite (dispatch_matched req Error).
  - cbn [view_functions option_map]. rewrite error_run. reflexivity.
  - rewrite (match_rule_get req "/error" Hm Hp). reflexivity.
Qed.

Lemma get_error_response_witness :
  response_of (probe "/error") (boot true 3)
  = Some (Returned (Str "Something went wrong!", 500)).
Proof. apply get_error_response; reflexivity. Defined.

(** C3. Every GET request for [/health] gets the dict with the single
    item "status": "healthy", with status 200. *)
Theorem get_health_response (req : Request) (w : World) :
  method req = "GET" -> path req = "/health" ->
  response_of req w = Some (Returned (Dict [("status", "healthy")], 200)).
Proof.
  intros Hm Hp. unfold response_of.
  rewrite (dispatch_matched req Health).
  - reflexivity.
  - rewrite (match_rule_get req "/health" Hm Hp). reflexivity.
Qed.

Lemma get_health_response_witness :
  response_of (probe "/health") busy
  = Some (Returned (Dict [("status", "healthy")], 200)).
Proof. apply get_health_response; reflexivity. Defined.

(** C4. In the running application, handling GET [/] appends exactly one
    record, of level INFO, whose message contains "Homepage visited";
    handling GET [/error] appends exactly one record, of level ERROR, whose
    message contains "An error occurred!"; handling GET [/health] leaves
    the log as it was. *)
Theorem log_records_per_route (req : Request) (w : World) :
  reachable w -> method req = "GET" ->
  (path req = "/" ->
   exists r, log_after req w = Some (app_log w ++ [r]) /\
             levelno r = INFO /\
             contains "Homepage visited" (msg r) = true) /\
  (path req = "/error" ->
   exists r, log_after req w = Some (app_log w ++ [r]) /\
             levelno r = ERROR /\
             contains "An error occurred!" (msg r) = true) /\
  (path req = "/health" -> log_after req w = Some (app_log w)).
Proof.
  intros Hw Hm. unfold log_after. repeat split; intros Hp.
  - rewrite (dispatch_matched req Home)
      by (rewrite (match_rule_get req "/" Hm Hp); reflexivity).
    cbn [view_functions option_map]. rewrite home_run. cbn [snd].
    rewrite logger_log_enabled by enabled.
    eexists; repeat split; reflexivity.
  - rewrite (dispatch_matched req Error)
      by (rewrite (match_rule_get req "/error" Hm Hp); reflexivity).
    cbn [view_functions option_map]. rewrite error_run. cbn [snd].
    rewrite logger_log_enabled by enabled.
    eexists; repeat split; reflexivity.
  - rewrite (dispatch_matched req Health)
      by (rewrite (match_rule_get req "/health" Hm Hp); reflexivity).
    reflexivity.
Qed.

Lemma log_records_per_route_witness :
  exists r,
    log_after (curl "/error" "") busy = Some (app_log busy ++ [r]) /\
    levelno r = ERROR /\
    contains "An error occurred!" (msg r) = true.
Proof.
  apply (log_records_per_route (curl "/error" "") busy busy_reachable eq_refl).
  reflexivity.
Defined.

(** ** Repeated requests *)

Lemma serve_all_matched (req : Request) (e : Endpoint)
    (rest : list Request) (w : World) :
  match_rule req = Some e ->
  serve_all (req :: rest) w
  = (fst (view_functions e req w)
       :: fst (serve_all rest (snd (view_functions e req w))),
     snd (serve_all rest (snd (view_functions e req w)))).
Proof.
  intros Hroute. cbn [serve_all]. rewrite (dispatch_matched req e w Hroute).
  destruct (view_functions e req w) as [out w']. cbn [fst snd].
  destruct (serve_all rest w') as [outs w'']. reflexivity.
Qed.

Lemma serve_all_settings (reqs : list Request) (w : World) :
  settings (snd (serve_all reqs w)) = settings w.
Proof.
  revert w. induction reqs as [| req rest IH]; intros w; [reflexivity |].
  cbn [serve_all]. unfold dispatch_request.
  destruct (match_rule req) as [e |]; [| apply IH].
  pose proof (view_settings e req w) as Hstep.
  destruct (view_functions e req w) as [out w']. cbn [snd] in Hstep.
  specialize (IH w').
  destruct (serve_all rest w') as [outs w'']. cbn [snd] in *.
  congruence.
Qed.

Lemma serve_all_log_grows (reqs : list Request) (w : World) :
  exists new, app_log (snd (serve_all reqs w)) = app_log w ++ new.
Proof.
  revert w. induction reqs as [| req rest IH]; intros w.
  { exists []. cbn. symmetry. apply app_nil_r. }
  cbn [serve_all]. unfold dispatch_request.
  destruct (match_rule req) as [e |]; [| apply IH].
  destruct (view_log_grows e req w) as [new1 Hstep].
  destruct (view_functions e req w) as [out w']. cbn [snd] in Hstep.
  destruct (IH w') as [new2 Hrest].
  destruct (serve_all rest w') as [outs w'']. cbn [snd] in *.
  exists (new1 ++ new2). rewrite Hrest, Hstep. symmetry. apply app_assoc.
Qed.

Lemma serve_all_repeat (req : Request) (e : Endpoint) (w0 : World) :
  match_rule req = Some e ->
  forall (n : nat) (w : World),
    fst (serve_all (repeat req n) w) = repeat (fst (view_functions e req w0)) n.
Proof.
  intros Hroute. induction n as [| n IH]; intros w; [reflexivity |].
  cbn [repeat]. rewrite (serve_all_matched req e _ w Hroute). cbn [fst].
  rewrite IH. f_equal. apply view_response_fixed.
Qed.

(** C5. The same request sent [n] times in a row, from any world at all,
    is answered [n] times with one and the same body and status, namely
    the answer a single call gives in any other world [w0] (so neither the
    log nor the generator of [random] bears on it); the calls leave the
    logger levels and the generator of [random] exactly as they were, and
    every record already in the log stays where it is. *)
Theorem repeated_requests_same_response
    (req : Request) (e : Endpoint) (n : nat) (w w0 : World) :
  match_rule req = Some e ->
  fst (serve_all (repeat req n) w) = repeat (fst (view_functions e req w0)) n /\
  settings (snd (serve_all (repeat req n) w)) = settings w /\
  exists new, app_log (snd (serve_all (repeat req n) w)) = app_log w ++ new.
Proof.
  intros Hroute. split; [| split].
  - apply serve_all_repeat. exact Hroute.
  - apply serve_all_settings.
  - apply serve_all_log_grows.
Qed.

Lemma repeated_requests_same_response_witness :
  fst (serve_all (repeat (curl "/" "a=1") 5) busy)
  = repeat (fst (view_functions Home (curl "/" "a=1") (boot true (-9)))) 5 /\
  settings (snd (serve_all (repeat (curl "/" "a=1") 5) busy)) = settings busy /\
  exists new,
    app_log (snd (serve_all (repeat (curl "/" "a=1") 5) busy))
    = app_log busy ++ new.
Proof.
  apply (repeated_requests_same_response (curl "/" "a=1") Home 5 busy (boot true (-9))).
  reflexivity.
Defined.

(** C6. In the running application a call of [error] returns, it does not
    raise: it hands back the fixed body with status 500 and has written
    the one fixed ERROR record, whatever the request and the world. *)
Theorem error_route_returns_normally (req : Request) (w : World) :
  reachable w ->
  exists w',
    error req w = (Returned (Str "Something went wrong!", 500), w') /\
    app_log w' = app_log w ++ [mkRecord ERROR "An error occurred!"] /\
    settings w' = settings w.
Proof.
  intros Hw. rewrite error_run. eexists. split; [reflexivity |]. split.
  - apply logger_log_enabled. enabled.
  - apply logger_log_settings.
Qed.

Lemma error_route_returns_normally_witness :
  exists w',
    error (probe "/error") busy
    = (Returned (Str "Something went wrong!", 500), w') /\
    app_log w' = app_log busy ++ [mkRecord ERROR "An error occurred!"] /\
    settings w' = settings busy.
Proof.
  apply (error_route_returns_normally (probe "/error") busy busy_reachable).
Defined.

(** C7, as stated: not every view function writes one record per request.
    [health] contains no logging call, and the log is as long after it as
    before. *)
Lemma one_record_per_request_fails :
  ~ (forall (e : Endpoint) (req : Request) (w : World),
        reachable w ->
        exists r, app_log (snd (view_functions e req w)) = app_log w ++ [r]).
Proof.
  intros Hall.
  destruct (Hall Health (curl "/health" "") (boot false 0) (reach_boot false 0))
    as [r Hr].
  cbn in Hr. discriminate Hr.
Qed.

(** C7, amended: in the running application a request handled by [home] or
    by [error] writes exactly one record, and a request handled by
    [health] writes none. *)
Theorem records_per_endpoint (e : Endpoint) (req : Request) (w : World) :
  reachable w ->
  (e <> Health ->
   exists r, app_log (snd (view_functions e req w)) = app_log w ++ [r]) /\
  (e = Health -> app_log (snd (view_functions e req w)) = app_log w).
Proof.
  intros Hw. split.
  - intros Hne. destruct e; cbn [view_functions].
    + rewrite home_run. cbn [snd]. eexists. apply logger_log_enabled. enabled.
    + rewrite error_run. cbn [snd]. eexists. apply logger_log_enabled. enabled.
    + contradiction.
  - intros ->. reflexivity.
Qed.

Lemma records_per_endpoint_witness :
  (Home <> Health ->
   exists r,
     app_log (snd (view_functions Home (curl "/" "") busy)) = app_log busy ++ [r]) /\
  (Home = Health ->
   app_log (snd (view_functions Home (curl "/" "") busy)) = app_log busy).
Proof.
  apply (records_per_endpoint Home (curl "/" "") busy busy_reachable).
Defined.

(** C8. Run as the main module, the program asks for one listener, on the
    wildcard address 0.0.0.0 and port 5000, whatever the command line and
    the environment of the process are. *)
Theorem entry_point_listener (argv : list string)
    (environ : list (string * string)) :
  exists l,
    main "__main__" argv environ = Some l /\
    host l = "0.0.0.0" /\ all_interfaces l = true /\ port l = 5000.
Proof. eexists. repeat split. Qed.

(** C9. Each of the three view functions returns its fixed body and status
    for every request and every world, and none of them ever raises. *)
Theorem views_total (req : Request) (w : World) :
  fst (home req w) = Returned (Str "Welcome to Cool Tech Store!", 200) /\
  fst (error req w) = Returned (Str "Something went wrong!", 500) /\
  fst (health req w) = Returned (Dict [("status", "healthy")], 200) /\
  forall (e : Endpoint) (exn : string),
    fst (view_functions e req w) <> Raised exn.
Proof.
  rewrite home_run, error_run, health_run. repeat split.
  intros e exn. destruct e; cbn [view_functions];
    rewrite ?home_run, ?error_run, ?health_run; discriminate.
Qed.

(** C10. Two requests routed to the same view function get the same body
    and status, whatever their query strings, headers and bodies, and
    whatever the worlds they arrive in. *)
Theorem response_ignores_request
    (req1 req2 : Request) (w1 w2 : World) (e : Endpoint) :
  match_rule req1 = Some e -> match_rule req2 = Some e ->
  exists out,
    response_of req1 w1 = Some out /\ response_of req2 w2 = Some out.
Proof.
  intros H1 H2. exists (fst (view_functions e req1 w1)).
  unfold response_of.
  rewrite (dispatch_matched req1 e w1 H1), (dispatch_matched req2 e w2 H2).
  cbn [option_map]. split; [reflexivity |].
  f_equal. apply view_response_fixed.
Qed.

Lemma response_ignores_request_witness :
  exists out,
    response_of (curl "/health" "verbose=1") (boot true 1) = Some out /\
    response_of (probe "/health") busy = Some out.
Proof.
  apply (response_ignores_request _ _ _ _ Health); reflexivity.
Defined.

(** * The application over a whole run *)

(** ** What a stream of requests leaves behind *)

(** The records a request is due, read off the logging call at the head
    of the view function it is routed to. *)
Definition written (req : Request) : list LogRecord :=
  match match_rule req with
  | Some Home => [mkRecord INFO "Homepage visited"]
  | Some Error => [mkRecord ERROR "An error occurred!"]
  | Some Health => []
  | None => []
  end.

Definition routes_to_health (req : Request) : bool :=
  match match_rule req with
  | Some Health => true
  | _ => false
  end.

Definition count_level (level : Z) (log : list LogRecord) : nat :=
  length (filter (fun r => levelno r =? level) log).

Definition has_status (status : Z) (out : Outcome Response) : bool :=
  match out with
  | Returned (_, s) => s =? status
  | Raised _ => false
  end.

Definition count_status (status : Z) (outs : list (Outcome Response)) : nat :=
  length (filter (has_status status) outs).

Lemma serve_all_unmatched (req : Request) (rest : list Request) (w : World) :
  match_rule req = None ->
  serve_all (req :: rest) w = serve_all rest w.
Proof.
  intros Hroute. cbn [serve_all]. unfold dispatch_request.
  rewrite Hroute. reflexivity.
Qed.

(** One request, in a world where INFO is enabled: the log gets what the
    request is due and nothing else. *)
Lemma view_written (req : Request) (e : Endpoint) (w : World) :
  configured w -> match_rule req = Some e ->
  app_log (snd (view_functions e req w)) = app_log w ++ written req.
Proof.
  intros Hw Hroute. unfold written. rewrite Hroute.
  destruct e; cbn [view_functions].
  - rewrite home_run. cbn [snd]. apply logger_log_enabled.
    apply configured_enabled; [exact Hw | unfold INFO; lia].
  - rewrite error_run. cbn [snd]. apply logger_log_enabled.
    apply configured_enabled; [exact Hw | unfold INFO, ERROR; lia].
  - cbn. symmetry. apply app_nil_r.
Qed.

Lemma view_configured (e : Endpoint) (req : Request) (w : World) :
  configured w -> configured (snd (view_functions e req w)).
Proof. apply settings_configured, view_settings. Qed.

Lemma serve_all_written (reqs : list Request) (w : World) :
  configured w ->
  app_log (snd (serve_all reqs w)) = app_log w ++ flat_map written reqs.
Proof.
  revert w. induction reqs as [| req rest IH]; intros w Hw.
  { cbn. symmetry. apply app_nil_r. }
  cbn [flat_map].
  destruct (match_rule req) as [e |] eqn:Hroute.
  - rewrite (serve_all_matched req e rest w Hroute). cbn [snd].
    rewrite IH by (apply view_configured; exact Hw).
    rewrite (view_written req e w Hw Hroute). symmetry. apply app_assoc.
  - rewrite (serve_all_unmatched req rest w Hroute).
    rewrite IH by exact Hw.
    unfold written at 2. rewrite Hroute. reflexivity.
Qed.

(** Responses do not depend on the world the stream starts in. *)
Lemma serve_all_responses (reqs : list Request) (w1 w2 : World) :
  fst (serve_all reqs w1) = fst (serve_all reqs w2).
Proof.
  revert w1 w2. induction reqs as [| req rest IH]; intros w1 w2; [reflexivity |].
  destruct (match_rule req) as [e |] eqn:Hroute.
  - rewrite !(serve_all_matched req e rest _ Hroute). cbn [fst].
    f_equal; [apply view_response_fixed | apply IH].
  - rewrite !(serve_all_unmatched req rest _ Hroute). apply IH.
Qed.

Lemma serve_all_app (pre post : list Request) (w : World) :
  serve_all (pre ++ post) w
  = (fst (serve_all pre w) ++ fst (serve_all post (snd (serve_all pre w))),
     snd (serve_all post (snd (serve_all pre w)))).
Proof.
  revert w. induction pre as [| req rest IH]; intros w.
  { cbn. destruct (serve_all post w); reflexivity. }
  cbn [app].
  destruct (match_rule req) as [e |] eqn:Hroute.
  - rewrite !(serve_all_matched req e _ w Hroute). cbn [fst snd].
    rewrite IH. reflexivity.
  - rewrite !(serve_all_unmatched req _ w Hroute). apply IH.
Qed.

Lemma count_level_app (level : Z) (l1 l2 : list LogRecord) :
  count_level level (l1 ++ l2)
  = (count_level level l1 + count_level level l2)%nat.
Proof. unfold count_level. rewrite filter_app, length_app. reflexivity. Qed.

(** For one routed request: as many ERROR records as 500 responses. *)
Lemma written_errors (req : Request) (e : Endpoint) (w0 : World) :
  match_rule req = Some e ->
  count_level ERROR (written req)
  = count_status 500 [fst (view_functions e req w0)].
Proof.
  intros Hroute. unfold written. rewrite Hroute.
  destruct e; cbn [view_functions];
    rewrite ?home_run, ?error_run, ?health_run; reflexivity.
Qed.

Lemma errors_match_responses (reqs : list Request) (w0 : World) :
  count_level ERROR (flat_map written reqs)
  = count_status 500 (fst (serve_all reqs w0)).
Proof.
  induction reqs as [| req rest IH]; [reflexivity |].
  cbn [flat_map]. rewrite count_level_app, IH.
  destruct (match_rule req) as [e |] eqn:Hroute.
  - rewrite (serve_all_matched req e rest w0 Hroute). cbn [fst].
    rewrite (written_errors req e w0 Hroute).
    rewrite (serve_all_responses rest (snd (view_functions e req w0)) w0).
    unfold count_status. cbn [filter].
    destruct (has_status 500 (fst (view_functions e req w0))); reflexivity.
  - rewrite (serve_all_unmatched req rest w0 Hroute).
    unfold written. rewrite Hroute. reflexivity.
Qed.

(** The records the application ever writes. *)
Definition fixed_record (r : LogRecord) : Prop :=
  r = mkRecord INFO "Homepage visited" \/
  r = mkRecord ERROR "An error occurred!".

Lemma written_fixed (req : Request) : Forall fixed_record (written req).
Proof.
  unfold written.
  destruct (match_rule req) as [[| |] |];
    try (constructor; [unfold fixed_record; auto |]); constructor.
Qed.

(** The streams the statements below speak of: GET requests, to any path.
    (HEAD and OPTIONS are answered through the framework's own handling,
    which [match_rule] does not cover.) *)
Definition all_get (reqs : list Request) : bool :=
  forallb (fun r => (method r =? "GET")%string) reqs.

(** A stream of requests the statements below are tried on. *)
Definition morning : list Request :=
  [curl "/" ""; probe "/health"; curl "/error" "id=7"; curl "/cart" "";
   probe "/health"; curl "/error" ""; curl "/" "utm=ad"].

(** X1. Served from any world of the running application, a stream of
    GET requests adds to the log exactly the records its requests are due, in
    the order of the requests: one INFO record per request for [/], one
    ERROR record per request for [/error], nothing for the others. *)
Theorem log_is_trace_of_requests (reqs : list Request) (w : World) :
  reachable w -> all_get reqs = true ->
  app_log (snd (serve_all reqs w)) = app_log w ++ flat_map written reqs.
Proof.
  intros Hw _. apply serve_all_written, reachable_configured, Hw.
Qed.

Lemma log_is_trace_of_requests_witness :
  app_log (snd (serve_all morning busy))
  = app_log busy ++ flat_map written morning.
Proof.
  apply (log_is_trace_of_requests morning busy busy_reachable). reflexivity.
Defined.

(** X2. At every moment of a run the log holds nothing but copies of the
    two records the source spells out: no other level, no other text. *)
Theorem log_holds_only_fixed_records (w : World) :
  reachable w -> Forall fixed_record (app_log w).
Proof.
  induction 1 as [debug seed | req e w Hw IH Hroute].
  - constructor.
  - rewrite (view_written req e w (reachable_configured w Hw) Hroute).
    apply Forall_app. split; [exact IH | apply written_fixed].
Qed.

Lemma log_holds_only_fixed_records_witness :
  Forall fixed_record (app_log busy).
Proof. apply (log_holds_only_fixed_records busy busy_reachable). Defined.

(** X3. Over any stream of GET requests the log gains as many ERROR records
    as there are responses with status 500. *)
Theorem error_records_match_500_responses (reqs : list Request) (w : World) :
  reachable w -> all_get reqs = true ->
  count_level ERROR (app_log (snd (serve_all reqs w)))
  = (count_level ERROR (app_log w)
     + count_status 500 (fst (serve_all reqs w)))%nat.
Proof.
  intros Hw _.
  rewrite (serve_all_written reqs w (reachable_configured w Hw)).
  rewrite count_level_app. f_equal. apply errors_match_responses.
Qed.

Lemma error_records_match_500_responses_witness :
  count_level ERROR (app_log (snd (serve_all morning busy)))
  = (count_level ERROR (app_log busy)
     + count_status 500 (fst (serve_all morning busy)))%nat.
Proof.
  apply (error_records_match_500_responses morning busy busy_reachable).
  reflexivity.
Defined.

(** X4. What was served before has no bearing on what is answered next:
    for GET requests, the responses to [post] after [pre] are the responses
    to [post] served on its own, from any world whatever. *)
Theorem response_independent_of_history
    (pre post : list Request) (w w0 : World) :
  all_get (pre ++ post) = true ->
  fst (serve_all (pre ++ post) w)
  = fst (serve_all pre w) ++ fst (serve_all post w0).
Proof.
  intros _. rewrite serve_all_app. cbn [fst]. f_equal. apply serve_all_responses.
Qed.

Lemma response_independent_of_history_witness :
  fst (serve_all (morning ++ [probe "/error"]) busy)
  = fst (serve_all morning busy)
    ++ fst (serve_all [probe "/error"] (boot true 11)).
Proof.
  apply (response_independent_of_history morning [probe "/error"]).
  reflexivity.
Defined.

(** X5. GET requests for [/health] leave no trace: the log, the logger
    levels and the generator of [random] after a stream of GET requests
    are what they are after the same stream without them. *)
Theorem health_checks_leave_no_trace (reqs : list Request) (w : World) :
  all_get reqs = true ->
  snd (serve_all reqs w)
  = snd (serve_all (filter (fun r => negb (routes_to_health r)) reqs) w).
Proof.
  intros _. revert w. induction reqs as [| req rest IH]; intros w; [reflexivity |].
  cbn [filter]. unfold routes_to_health at 1.
  destruct (match_rule req) as [e |] eqn:Hroute.
  - destruct e; cbn [negb].
    + rewrite !(serve_all_matched req Home _ w Hroute). cbn [snd]. apply IH.
    + rewrite !(serve_all_matched req Error _ w Hroute). cbn [snd]. apply IH.
    + rewrite (serve_all_matched req Health rest w Hroute). cbn [snd].
      rewrite health_run. cbn [snd]. apply IH.
  - cbn [negb]. rewrite !(serve_all_unmatched req _ w Hroute). apply IH.
Qed.

Lemma health_checks_leave_no_trace_witness :
  snd (serve_all morning busy)
  = snd (serve_all (filter (fun r => negb (routes_to_health r)) morning) busy).
Proof. apply (health_checks_leave_no_trace morning busy). reflexivity. Defined.




